(** * imaginairy/cmds.py: the command-line layer of imaginAIry

    A shallow embedding of [imagine_cmd] (the [generate] command) and
    [describe], the two commands of [src/imaginairy/cmds.py], followed by
    the properties of the batch of [ImaginePrompt] jobs they build.

    Python values are modelled as follows.
    - [int] is [Z]; [float] is the primitive binary64 [float]; [bool] is
      [bool]; [str] is [string] (a byte string: the only inspection of a
      string's contents is the test for the ASCII prefix ["http"], which
      reads the same on bytes and on code points).
    - an optional argument ([None] or a value) is an [option].
    - a tuple of arguments ([nargs=-1], [multiple=True]) is a [list].
    - calls to collaborators outside the module ([load_model],
      [imagine_image_files], [logger.info], [print], ...) are recorded,
      in order, as events of a trace. *)

From Stdlib Require Import String Ascii DecimalString.
From Stdlib Require Import ZArith List Bool Lia PrimFloat.
Import ListNotations.

Local Open Scope string_scope.
Local Open Scope Z_scope.
Local Open Scope list_scope.

(** ** Values that cross the module's boundary *)

(** Modelled from the spec: [LazyLoadingImage] is imported from the
    [imaginairy] package and its class body is not part of [cmds.py].
    The spec (section 3) gives it one attribute, its origin, either a local
    path or a remote URL, and says that construction performs no I/O.  The
    two constructors are the two keyword forms [cmds.py] builds it with. *)
Inductive LazyLoadingImage : Type :=
| LazyLoadingImage_url (url : string)
| LazyLoadingImage_filepath (filepath : string).

(** What the name [init_image] (or [mask_image]) may be bound to when it is
    handed to [ImaginePrompt]: [None], a raw [str], or a
    [LazyLoadingImage]. *)
Inductive image_ref : Type :=
| RefNone
| RefStr (s : string)
| RefLazy (img : LazyLoadingImage).

Module schema.

(** Modelled from the spec: [ImaginePrompt] is imported from
    [imaginairy.schema]; only its call in [imagine_cmd] is in [cmds.py].
    The spec (section 3, PromptSpec) describes it as an immutable
    description of one job that carries the values it was built from.
    The record has one field per argument of that call. *)
Record ImaginePrompt : Type := mkImaginePrompt {
  prompt_text : string;
  prompt_strength : float;
  init_image : image_ref;
  init_image_strength : float;
  seed : option Z;
  sampler_type : string;
  steps : Z;
  height : Z;
  width : Z;
  mask_image : image_ref;
  mask_prompt : option string;
  mask_expansion : Z;
  mask_mode : string;
  upscale : bool;
  fix_faces : bool
}.

End schema.

(** Modelled from the spec: the error kinds of section 7.  [cmds.py]
    defines no exception class and contains no [raise] statement; an
    exception can only come out of a collaborator. *)
Inductive exn : Type :=
| InvalidParameter
| SourceUnavailable
| GenerationFailure.

(** The part of [click.Context] that [imagine_cmd] reads. *)
Record Context : Type := { invoked_subcommand : option string }.

(** ** Effects *)

(** The calls a command makes to the outside, with their arguments. *)
Inductive event : Type :=
| suppress_annoying_logs_and_warnings
| dictConfig (fmt level : string)
| logger_info (msg : string)
| load_model (tile_mode : bool)
| imagine_image_files
    (prompts : list schema.ImaginePrompt) (outdir : string) (ddim_eta : float)
    (record_step_images tile_mode : bool) (output_file_extension : string)
    (print_caption : bool)
| img_copy (img : LazyLoadingImage)
| print (line : string).

(** A command run: the trace of calls made so far, and either the exception
    that ended the run or the value returned. *)
Definition Cmd (A : Type) : Type := (list event * (exn + A))%type.

Definition ret {A : Type} (a : A) : Cmd A := ([], inr a).

Definition bind {A B : Type} (m : Cmd A) (k : A -> Cmd B) : Cmd B :=
  match m with
  | (tr, inl e) => (tr, inl e)
  | (tr, inr a) => let (tr', r) := k a in (tr ++ tr', r)
  end.

Definition emit (ev : event) : Cmd unit := ([ev], inr tt).

(** The result of a call to a collaborator whose value is used. *)
Definition call {A : Type} (r : exn + A) : Cmd A := ([], r).

Definition trace {A : Type} (m : Cmd A) : list event := fst m.
Definition outcome {A : Type} (m : Cmd A) : exn + A := snd m.

Declare Scope cmd_scope.
Delimit Scope cmd_scope with cmd.
Notation "x <- m ;; k" := (bind m (fun x => k))
  (at level 100, m at next level, right associativity) : cmd_scope.
Notation "m ;; k" := (bind m (fun _ => k))
  (at level 100, right associativity) : cmd_scope.
Local Open Scope cmd_scope.

(** [for x in l: body(x)] for a body with effects only. *)
Fixpoint for_each {A : Type} (l : list A) (body : A -> Cmd unit) : Cmd unit :=
  match l with
  | [] => ret tt
  | x :: l' => body x ;; for_each l' body
  end.

(** ** Python built-ins *)

(** [range(n)]: empty when [n <= 0]. *)
Definition range (n : Z) : list Z := map Z.of_nat (seq 0 (Z.to_nat n)).

(** [len(t)]. *)
Definition len {A : Type} (t : list A) : Z := Z.of_nat (length t).

(** [s.startswith(p)]. *)
Definition startswith (s p : string) : bool := prefix p s.

(** The truth value of an optional string: [None] and [""] are false. *)
Definition truthy (v : option string) : bool :=
  match v with
  | None => false
  | Some s => negb (s =? "")%string
  end.

(** How an f-string formats an [int]. *)
Definition str_of_int (z : Z) : string := NilZero.string_of_int (Z.to_int z).

(** [x in t] for a tuple of strings. *)
Definition contains (x : string) (t : list string) : bool :=
  existsb (String.eqb x) t.

(** ** [configure_logging] *)

Definition configure_logging (level : string) : Cmd unit :=
  let fmt := "%(message)s" in
  let fmt :=
    if (level =? "DEBUG")%string
    then "%(asctime)s [%(levelname)s] %(name)s:%(lineno)d: %(message)s"
    else fmt in
  emit (dictConfig fmt level).

(** ** [imagine_cmd], the [generate] command *)

(** A raw command-line value as an [image_ref]. *)
Definition as_ref (v : option string) : image_ref :=
  match v with
  | None => RefNone
  | Some s => RefStr s
  end.

Section imagine_cmd.

(** The arguments, in the order of the [def]. *)
Variable ctx : Context.
Variable prompt_texts : list string.
Variable prompt_strength : float.
Variable init_image : option string.
Variable init_image_strength : float.
Variable outdir : string.
Variable repeats : Z.
Variable height : Z.
Variable width : Z.
Variable steps : Z.
Variable seed : option Z.
Variable upscale : bool.
Variable fix_faces : bool.
Variable sampler_type : string.
Variable ddim_eta : float.
Variable log_level : string.
Variable show_work : list string.
Variable tile : bool.
Variable mask_image : option string.
Variable mask_prompt : option string.
Variable mask_mode : string.
Variable mask_expansion : Z.
Variable caption : bool.

Definition imagine_cmd : Cmd unit :=
  match invoked_subcommand ctx with
  | Some _ => ret tt
  | None =>
    emit suppress_annoying_logs_and_warnings ;;
    configure_logging log_level ;;
    let total_image_count := len prompt_texts * repeats in
    emit (logger_info
      ("🤖🧠 imaginAIry received " ++ str_of_int (len prompt_texts)
       ++ " prompt(s) and will repeat them " ++ str_of_int repeats
       ++ " times to create " ++ str_of_int total_image_count
       ++ " images.")%string) ;;
    sampler_type <-
      (if truthy init_image && negb (sampler_type =? "ddim")%string
       then
         let sampler_type := "ddim" in
         emit (logger_info "   Sampler type switched to ddim for img2img") ;;
         ret sampler_type
       else ret sampler_type) ;;
    (* [if init_image and init_image.startswith("http")] *)
    let init_image :=
      match init_image with
      | Some s =>
        if truthy (Some s) && startswith s "http"
        then RefLazy (LazyLoadingImage_url s)
        else RefStr s
      | None => RefNone
      end in
    let prompts := [] in
    emit (load_model tile) ;;
    let prompts :=
      fold_left (fun prompts _ =>
        fold_left (fun prompts prompt_text =>
          let prompt :=
            {| schema.prompt_text := prompt_text;
               schema.prompt_strength := prompt_strength;
               schema.init_image := init_image;
               schema.init_image_strength := init_image_strength;
               schema.seed := seed;
               schema.sampler_type := sampler_type;
               schema.steps := steps;
               schema.height := height;
               schema.width := width;
               schema.mask_image := as_ref mask_image;
               schema.mask_prompt := mask_prompt;
               schema.mask_expansion := mask_expansion;
               schema.mask_mode := mask_mode;
               schema.upscale := upscale;
               schema.fix_faces := fix_faces |} in
          prompts ++ [prompt])
        prompt_texts prompts)
      (range repeats) prompts in
    emit (imagine_image_files prompts outdir ddim_eta
            (contains "images" show_work) tile "png" caption)
  end.

End imagine_cmd.

(** ** [describe] *)

(** The first loop of [describe]: the list [imgs] once every path has been
    turned into a [LazyLoadingImage]. *)
Definition describe_imgs (image_filepaths : list string)
  : list LazyLoadingImage :=
  let imgs := [] in
  fold_left (fun imgs p =>
    let img :=
      if startswith p "http"
      then LazyLoadingImage_url p
      else LazyLoadingImage_filepath p in
    imgs ++ [img])
  image_filepaths imgs.

Section describe.

(** The decoded image a [LazyLoadingImage] stands for, and the two
    collaborators that produce and consume it: [img.copy()], which loads
    the image, and [generate_caption].  Either may raise. *)
Variable Image : Type.
Variable copy : LazyLoadingImage -> exn + Image.
Variable generate_caption : Image -> exn + string.

Definition describe (image_filepaths : list string) : Cmd unit :=
  let imgs := describe_imgs image_filepaths in
  for_each imgs (fun img =>
    loaded <- (emit (img_copy img) ;; call (copy img)) ;;
    text <- call (generate_caption loaded) ;;
    emit (print text)).

End describe.

(** ** Reading a trace *)

(** The batches handed to [imagine_image_files], in call order. *)
Fixpoint dispatched (tr : list event) : list (list schema.ImaginePrompt) :=
  match tr with
  | [] => []
  | imagine_image_files prompts _ _ _ _ _ _ :: tr' => prompts :: dispatched tr'
  | _ :: tr' => dispatched tr'
  end.

(** The lines written by [print], in order. *)
Fixpoint printed (tr : list event) : list string :=
  match tr with
  | [] => []
  | print line :: tr' => line :: printed tr'
  | _ :: tr' => printed tr'
  end.

(** The messages passed to [logger.info], in order. *)
Fixpoint logged (tr : list event) : list string :=
  match tr with
  | [] => []
  | logger_info msg :: tr' => msg :: logged tr'
  | _ :: tr' => logged tr'
  end.

(** The images whose [copy] was called, in order. *)
Fixpoint resolved (tr : list event) : list LazyLoadingImage :=
  match tr with
  | [] => []
  | img_copy img :: tr' => img :: resolved tr'
  | _ :: tr' => resolved tr'
  end.

(** The tile modes [load_model] was called with, in order. *)
Fixpoint model_loads (tr : list event) : list bool :=
  match tr with
  | [] => []
  | load_model tile_mode :: tr' => tile_mode :: model_loads tr'
  | _ :: tr' => model_loads tr'
  end.

(** ** Inputs used as examples *)

(** The context of a plain [click.command]: no subcommand is invoked. *)
Definition ctx0 : Context := {| invoked_subcommand := None |}.

(** A stand-in for the two collaborators of [describe]: loading tags the
    reference with its origin, captioning quotes what was loaded. *)
Definition copy_tagged (img : LazyLoadingImage) : exn + string :=
  match img with
  | LazyLoadingImage_url u => inr ("remote " ++ u)%string
  | LazyLoadingImage_filepath f => inr ("local " ++ f)%string
  end.

Definition caption_quoted (loaded : string) : exn + string :=
  inr ("a picture from " ++ loaded)%string.

(** A loader with no network: a URL source cannot be loaded. *)
Definition copy_offline (img : LazyLoadingImage) : exn + string :=
  match img with
  | LazyLoadingImage_url _ => inl SourceUnavailable
  | LazyLoadingImage_filepath f => inr ("local " ++ f)%string
  end.

(** Scenario 1: two prompt texts, repeated twice, every option at its
    default. *)
Definition cat_dog_twice : Cmd unit :=
  imagine_cmd ctx0 ["a cat"; "a dog"] 7.5%float None
    0x1.3333333333333p-1%float "./outputs" 2 512 512 40 None false false
    "plms" 0%float "INFO" ["none"] false None None "replace" 2 false.

(** Scenario 2: the [plms] sampler with a local init image, a fixed seed,
    and both mask directives. *)
Definition photo_plms : Cmd unit :=
  imagine_cmd ctx0 ["a cat"; "a dog"] 7.5%float (Some "photo.jpg")
    0x1.3333333333333p-1%float "./outputs" 2 512 512 40 (Some 42) false
    false "plms" 0%float "INFO" ["none"] false (Some "http://x/mask.png")
    (Some "the sky") "replace" 2 false.

(** The same two prompt texts with a repeat count of [0] and of [-1]. *)
Definition cat_dog_zero_times : Cmd unit :=
  imagine_cmd ctx0 ["a cat"; "a dog"] 7.5%float None
    0x1.3333333333333p-1%float "./outputs" 0 512 512 40 None false false
    "plms" 0%float "INFO" ["none"] false None None "replace" 2 false.

Definition cat_dog_minus_one_times : Cmd unit :=
  imagine_cmd ctx0 ["a cat"; "a dog"] 7.5%float None
    0x1.3333333333333p-1%float "./outputs" (-1) 512 512 40 None false false
    "plms" 0%float "INFO" ["none"] false None None "replace" 2 false.

(** An init image given by URL. *)
Definition remote_photo : Cmd unit :=
  imagine_cmd ctx0 ["a cat"] 7.5%float (Some "http://x/y.png")
    0x1.3333333333333p-1%float "./outputs" 1 512 512 40 None false false
    "ddim" 0%float "INFO" ["none"] false None None "replace" 2 false.

(** Scenario 2 with the [ddim] sampler requested. *)
Definition photo_ddim : Cmd unit :=
  imagine_cmd ctx0 ["a cat"; "a dog"] 7.5%float (Some "photo.jpg")
    0x1.3333333333333p-1%float "./outputs" 2 512 512 40 (Some 42) false
    false "ddim" 0%float "INFO" ["none"] false (Some "http://x/mask.png")
    (Some "the sky") "replace" 2 false.

(** Scenario 1 with a repeat count of [1] and of [3]. *)
Definition cat_dog_once : Cmd unit :=
  imagine_cmd ctx0 ["a cat"; "a dog"] 7.5%float None
    0x1.3333333333333p-1%float "./outputs" 1 512 512 40 None false false
    "plms" 0%float "INFO" ["none"] false None None "replace" 2 false.

Definition cat_dog_thrice : Cmd unit :=
  imagine_cmd ctx0 ["a cat"; "a dog"] 7.5%float None
    0x1.3333333333333p-1%float "./outputs" 3 512 512 40 None false false
    "plms" 0%float "INFO" ["none"] false None None "replace" 2 false.

(** * Properties *)

(** ** Lists built by appending in a loop *)

Section loops.

Context {A B C : Type}.
Implicit Types (f : B -> A) (acc : list A).

Lemma fold_left_snoc f (l : list B) acc :
  fold_left (fun acc x => acc ++ [f x]) l acc = acc ++ map f l.
Proof.
  revert acc; induction l as [|x l IH]; intros acc; simpl.
  - now rewrite app_nil_r.
  - rewrite IH, <- app_assoc. reflexivity.
Qed.

Lemma nested_loop f (texts : list B) (rs : list C) acc :
  fold_left (fun acc _ =>
    fold_left (fun acc x => acc ++ [f x]) texts acc) rs acc
  = acc ++ concat (repeat (map f texts) (length rs)).
Proof.
  revert acc; induction rs as [|r rs IH]; intros acc; simpl.
  - now rewrite app_nil_r.
  - rewrite IH, fold_left_snoc, <- app_assoc. reflexivity.
Qed.

Lemma length_concat_repeat (l : list A) (R : nat) :
  length (concat (repeat l R)) = (R * length l)%nat.
Proof.
  induction R as [|R IH]; simpl; [reflexivity|].
  rewrite length_app, IH. reflexivity.
Qed.

Lemma nth_error_concat_repeat (l : list A) (R r i : nat) :
  (r < R)%nat -> (i < length l)%nat ->
  nth_error (concat (repeat l R)) (r * length l + i) = nth_error l i.
Proof.
  revert r; induction R as [|R IH]; intros r Hr Hi; [lia|].
  simpl. destruct r as [|r]; simpl.
  - now apply nth_error_app1.
  - rewrite nth_error_app2 by lia.
    replace (length l + r * length l + i - length l)%nat
      with (r * length l + i)%nat by lia.
    apply IH; lia.
Qed.

Lemma Forall_concat_repeat (P : A -> Prop) (l : list A) (R : nat) :
  Forall P l -> Forall P (concat (repeat l R)).
Proof.
  intros H; induction R as [|R IH]; simpl; [constructor|].
  apply Forall_app; split; assumption.
Qed.

Lemma Forall_batch (P : A -> Prop) f (l : list B) (R : nat) :
  (forall x, P (f x)) -> Forall P (concat (repeat (map f l) R)).
Proof.
  intros H. apply Forall_concat_repeat, Forall_map, Forall_forall.
  intros x _. apply H.
Qed.

Lemma concat_repeat_nil (R : nat) : concat (repeat (@nil A) R) = [].
Proof. induction R as [|R IH]; simpl; [reflexivity|exact IH]. Qed.

End loops.

Lemma length_range (n : Z) : length (range n) = Z.to_nat n.
Proof. unfold range. now rewrite length_map, length_seq. Qed.

Lemma startswith_truthy (s p : string) :
  p <> "" -> startswith s p = true -> truthy (Some s) = true.
Proof.
  unfold startswith, truthy. destruct s as [|c s]; [|reflexivity].
  destruct p as [|d p]; [congruence|discriminate].
Qed.

(** ** The run of [imagine_cmd] *)

Section imagine_cmd_run.

Variable ctx : Context.
Variable prompt_texts : list string.
Variable prompt_strength : float.
Variable init_image : option string.
Variable init_image_strength : float.
Variable outdir : string.
Variable repeats : Z.
Variable height : Z.
Variable width : Z.
Variable steps : Z.
Variable seed : option Z.
Variable upscale : bool.
Variable fix_faces : bool.
Variable sampler_type : string.
Variable ddim_eta : float.
Variable log_level : string.
Variable show_work : list string.
Variable tile : bool.
Variable mask_image : option string.
Variable mask_prompt : option string.
Variable mask_mode : string.
Variable mask_expansion : Z.
Variable caption : bool.

Local Abbreviation cmd :=
  (imagine_cmd ctx prompt_texts prompt_strength init_image
     init_image_strength outdir repeats height width steps seed upscale
     fix_faces sampler_type ddim_eta log_level show_work tile mask_image
     mask_prompt mask_mode mask_expansion caption).

(** The job built for one prompt text, once the sampler and the init image
    have been settled. *)
Local Abbreviation job sampler image text :=
  {| schema.prompt_text := text;
     schema.prompt_strength := prompt_strength;
     schema.init_image := image;
     schema.init_image_strength := init_image_strength;
     schema.seed := seed;
     schema.sampler_type := sampler;
     schema.steps := steps;
     schema.height := height;
     schema.width := width;
     schema.mask_image := as_ref mask_image;
     schema.mask_prompt := mask_prompt;
     schema.mask_expansion := mask_expansion;
     schema.mask_mode := mask_mode;
     schema.upscale := upscale;
     schema.fix_faces := fix_faces |}.

Local Abbreviation switched :=
  (truthy init_image && negb (sampler_type =? "ddim")%string).

Local Abbreviation notice := "   Sampler type switched to ddim for img2img".

Local Abbreviation received :=
  ("🤖🧠 imaginAIry received " ++ str_of_int (len prompt_texts)
   ++ " prompt(s) and will repeat them " ++ str_of_int repeats
   ++ " times to create " ++ str_of_int (len prompt_texts * repeats)
   ++ " images.")%string.

(** With no subcommand invoked the command runs to its end: it returns
    normally, loads the model once, and hands one batch to
    [imagine_image_files], namely the jobs of the prompt texts, in order,
    repeated [repeats] times. *)
Lemma imagine_cmd_run :
  invoked_subcommand ctx = None ->
  exists sampler image,
    sampler = (if switched then "ddim" else sampler_type) /\
    image = match init_image with
            | Some s => if startswith s "http"
                        then RefLazy (LazyLoadingImage_url s)
                        else RefStr s
            | None => RefNone
            end /\
    outcome cmd = inr tt /\
    dispatched (trace cmd) =
      [concat (repeat (map (fun text => job sampler image text) prompt_texts)
                      (Z.to_nat repeats))] /\
    model_loads (trace cmd) = [tile] /\
    logged (trace cmd) = received :: (if switched then [notice] else []).
Proof.
  intros Hctx. do 2 eexists. split; [reflexivity|]. split; [reflexivity|].
  unfold imagine_cmd. rewrite Hctx.
  assert (Himg : forall s, (if truthy (Some s) && startswith s "http"
                            then RefLazy (LazyLoadingImage_url s)
                            else RefStr s)
                         = (if startswith s "http"
                            then RefLazy (LazyLoadingImage_url s)
                            else RefStr s)).
  { intros s. destruct (startswith s "http") eqn:E.
    - rewrite (startswith_truthy s "http") by (congruence || exact E).
      reflexivity.
    - now rewrite andb_false_r. }
  destruct switched; destruct init_image as [s|]; try rewrite Himg;
    cbv beta zeta;
    cbn [bind emit ret configure_logging trace outcome fst snd app
         dispatched logged model_loads];
    rewrite nested_loop, length_range; cbn [app]; repeat split.
Qed.

Ltac run_of H :=
  let sampler := fresh "sampler" in
  let image := fresh "image" in
  let Hs := fresh "Hsampler" in
  let Hi := fresh "Himage" in
  let Ho := fresh "Houtcome" in
  let Hd := fresh "Hbatch" in
  let Hm := fresh "Hloads" in
  let Hl := fresh "Hlogged" in
  destruct (imagine_cmd_run H) as (sampler & image & Hs & Hi & Ho & Hd & Hm & Hl).

(** C1.  For prompt texts of length N and a repeat count R (a count: not
    negative), the generate command hands exactly N * R jobs to the
    backend, repeat-major and prompt-order-minor: the job at position
    r * N + i carries the i-th prompt text, for every r below R and every
    i below N. *)
Theorem batch_size_and_order :
  invoked_subcommand ctx = None ->
  0 <= repeats ->
  exists prompts,
    dispatched (trace cmd) = [prompts] /\
    len prompts = len prompt_texts * repeats /\
    forall r i : nat,
      Z.of_nat r < repeats -> (i < length prompt_texts)%nat ->
      exists p,
        nth_error prompts (r * length prompt_texts + i) = Some p /\
        nth_error prompt_texts i = Some (schema.prompt_text p).
Proof.
  intros Hctx Hrep. run_of Hctx.
  eexists. split; [exact Hbatch|]. split.
  - unfold len. rewrite length_concat_repeat, length_map. lia.
  - intros r i Hr Hi.
    match goal with
    | |- context [repeat (map ?f prompt_texts) ?R] =>
      pose proof (nth_error_concat_repeat (map f prompt_texts) R r i) as Hnth;
      rewrite length_map in Hnth
    end.
    rewrite Hnth by lia. rewrite nth_error_map.
    destruct (nth_error prompt_texts i) as [text|] eqn:Htext.
    + eexists. split; reflexivity.
    + apply nth_error_None in Htext. lia.
Qed.

(** C2.  Sampler resolution.  When an init image is present (the argument
    is a non-empty string, which is what the code tests) and the requested
    sampler is not ["ddim"], every job of the batch carries ["ddim"], the
    switch is announced through [logger.info], and the run ends without an
    error; when no init image is present every job carries the requested
    sampler, whatever it is, and no switch is announced. *)
Theorem sampler_resolution :
  invoked_subcommand ctx = None ->
  exists prompts,
    dispatched (trace cmd) = [prompts] /\
    outcome cmd = inr tt /\
    (truthy init_image = true -> sampler_type <> "ddim" ->
       Forall (fun p => schema.sampler_type p = "ddim") prompts /\
       In notice (logged (trace cmd))) /\
    (truthy init_image = false ->
       Forall (fun p => schema.sampler_type p = sampler_type) prompts /\
       ~ In notice (logged (trace cmd))).
Proof.
  intros Hctx. run_of Hctx.
  eexists. split; [exact Hbatch|]. split; [exact Houtcome|].
  rewrite Hlogged. split.
  - intros Himg Hreq.
    apply String.eqb_neq in Hreq. rewrite Himg, Hreq in *. simpl in Hsampler.
    subst sampler. split.
    + apply Forall_batch. reflexivity.
    + right. left. reflexivity.
  - intros Himg. rewrite Himg in *. simpl in Hsampler. subst sampler. split.
    + apply Forall_batch. reflexivity.
    + cbn [andb]. intros [Hfirst|[]]. discriminate Hfirst.
Qed.

(** C3, as amended.  A repeat count that is not positive is not rejected:
    the run ends without an error, the model is loaded, and the backend is
    handed one batch, which is empty. *)
Theorem nonpositive_repeats_empty_batch :
  invoked_subcommand ctx = None ->
  repeats <= 0 ->
  outcome cmd = inr tt /\
  model_loads (trace cmd) = [tile] /\
  dispatched (trace cmd) = [[]].
Proof.
  intros Hctx Hrep. run_of Hctx.
  split; [exact Houtcome|]. split; [exact Hloads|].
  rewrite Hbatch. replace (Z.to_nat repeats) with 0%nat by lia. reflexivity.
Qed.

(** C4.  With no prompt text, or with a repeat count of 0, the batch is
    empty and the run ends without an error. *)
Theorem empty_batch :
  invoked_subcommand ctx = None ->
  prompt_texts = [] \/ repeats = 0 ->
  outcome cmd = inr tt /\ dispatched (trace cmd) = [[]].
Proof.
  intros Hctx Hempty. run_of Hctx.
  split; [exact Houtcome|]. rewrite Hbatch.
  destruct Hempty as [Htexts|Hrep].
  - rewrite Htexts. simpl. now rewrite concat_repeat_nil.
  - rewrite Hrep. reflexivity.
Qed.

(** C5.  Seed propagation.  Every job of the batch carries the seed
    argument as it was given: the same value when one was supplied, and no
    seed when none was. *)
Theorem seed_propagation :
  invoked_subcommand ctx = None ->
  exists prompts,
    dispatched (trace cmd) = [prompts] /\
    Forall (fun p => schema.seed p = seed) prompts.
Proof.
  intros Hctx. run_of Hctx.
  eexists. split; [exact Hbatch|]. apply Forall_batch. reflexivity.
Qed.

(** C8.  Any two jobs of one batch agree on every field other than the
    prompt text. *)
Theorem shared_fields :
  invoked_subcommand ctx = None ->
  exists prompts,
    dispatched (trace cmd) = [prompts] /\
    forall p q, In p prompts -> In q prompts ->
      schema.seed p = schema.seed q /\
      schema.prompt_strength p = schema.prompt_strength q /\
      schema.init_image p = schema.init_image q /\
      schema.init_image_strength p = schema.init_image_strength q /\
      schema.height p = schema.height q /\
      schema.width p = schema.width q /\
      schema.steps p = schema.steps q /\
      schema.sampler_type p = schema.sampler_type q /\
      schema.mask_image p = schema.mask_image q /\
      schema.mask_prompt p = schema.mask_prompt q /\
      schema.mask_mode p = schema.mask_mode q /\
      schema.mask_expansion p = schema.mask_expansion q /\
      schema.upscale p = schema.upscale q /\
      schema.fix_faces p = schema.fix_faces q.
Proof.
  intros Hctx. run_of Hctx.
  eexists. split; [exact Hbatch|].
  match goal with
  | |- forall p q, In p ?b -> In q ?b -> _ =>
    assert (Hall : Forall (fun p => exists text, p = job sampler image text) b)
      by (apply Forall_batch; intros text; exists text; reflexivity)
  end.
  rewrite Forall_forall in Hall.
  intros p q Hp Hq.
  destruct (Hall p Hp) as [tp ->]. destruct (Hall q Hq) as [tq ->].
  repeat split.
Qed.

(** C9.  A mask image and a mask prompt given together are accepted: the
    run ends without an error, the batch is built in full, and every job
    carries both values unchanged. *)
Theorem both_mask_directives_accepted (m mp : string) :
  invoked_subcommand ctx = None ->
  mask_image = Some m ->
  mask_prompt = Some mp ->
  outcome cmd = inr tt /\
  exists prompts,
    dispatched (trace cmd) = [prompts] /\
    length prompts = (Z.to_nat repeats * length prompt_texts)%nat /\
    Forall (fun p => schema.mask_image p = RefStr m /\
                     schema.mask_prompt p = Some mp) prompts.
Proof.
  intros Hctx Hm Hmp. run_of Hctx.
  split; [exact Houtcome|]. eexists. split; [exact Hbatch|]. split.
  - now rewrite length_concat_repeat, length_map.
  - apply Forall_batch. intros text. simpl. rewrite Hm, Hmp. split; reflexivity.
Qed.

(** C10.  An init image that does not begin with ["http"] reaches every
    job as the raw string, not as a [LazyLoadingImage]; a mask image
    reaches every job as the raw string whatever it begins with. *)
Theorem raw_image_strings :
  invoked_subcommand ctx = None ->
  exists prompts,
    dispatched (trace cmd) = [prompts] /\
    (forall s, init_image = Some s -> startswith s "http" = false ->
       Forall (fun p => schema.init_image p = RefStr s) prompts) /\
    (forall m, mask_image = Some m ->
       Forall (fun p => schema.mask_image p = RefStr m) prompts).
Proof.
  intros Hctx. run_of Hctx.
  eexists. split; [exact Hbatch|]. split.
  - intros s Hs Hpre. rewrite Hs, Hpre in Himage. subst image.
    apply Forall_batch. reflexivity.
  - intros m Hm. apply Forall_batch. intros text. simpl. now rewrite Hm.
Qed.

(** The image references of every job: the init image is a URL source
    when the argument begins with ["http"] and the raw string otherwise;
    the mask image is the raw string. *)
Lemma image_refs_of_jobs (s : string) :
  invoked_subcommand ctx = None ->
  init_image = Some s ->
  exists prompts,
    dispatched (trace cmd) = [prompts] /\
    Forall (fun p => schema.init_image p =
                     if startswith s "http"
                     then RefLazy (LazyLoadingImage_url s)
                     else RefStr s) prompts /\
    Forall (fun p => schema.mask_image p = as_ref mask_image) prompts.
Proof.
  intros Hctx Hs. run_of Hctx.
  eexists. split; [exact Hbatch|].
  rewrite Hs in Himage. subst image.
  split; apply Forall_batch; reflexivity.
Qed.

(** ** The announcement, the repeats and the sampler *)

(** X3.  For a repeat count that is not negative, the number of images
    announced in the log is the number of jobs in the batch. *)
Theorem announced_total_is_batch_size :
  invoked_subcommand ctx = None ->
  0 <= repeats ->
  exists prompts,
    dispatched (trace cmd) = [prompts] /\
    hd_error (logged (trace cmd)) =
      Some ("🤖🧠 imaginAIry received " ++ str_of_int (len prompt_texts)
            ++ " prompt(s) and will repeat them " ++ str_of_int repeats
            ++ " times to create " ++ str_of_int (len prompts)
            ++ " images.")%string.
Proof.
  intros Hctx Hrep. run_of Hctx.
  eexists. split; [exact Hbatch|]. rewrite Hlogged. cbn [hd_error].
  match goal with
  | |- context [len (concat ?blocks)] =>
    replace (len (concat blocks)) with (len prompt_texts * repeats)
  end.
  - reflexivity.
  - unfold len. rewrite length_concat_repeat, length_map. lia.
Qed.

(** X4.  For a negative repeat count and at least one prompt text, the
    log announces a negative number of images (written with a minus
    sign), although the batch is empty. *)
Theorem negative_repeats_announce_negative_total :
  invoked_subcommand ctx = None ->
  repeats < 0 ->
  prompt_texts <> [] ->
  exists total digits,
    total < 0 /\
    str_of_int total = String "-" digits /\
    hd_error (logged (trace cmd)) =
      Some ("🤖🧠 imaginAIry received " ++ str_of_int (len prompt_texts)
            ++ " prompt(s) and will repeat them " ++ str_of_int repeats
            ++ " times to create " ++ str_of_int total
            ++ " images.")%string /\
    dispatched (trace cmd) = [[]].
Proof.
  intros Hctx Hrep Htexts. run_of Hctx.
  assert (Htotal : len prompt_texts * repeats < 0).
  { unfold len. destruct prompt_texts as [|t ts]; [congruence|].
    cbn [length]. nia. }
  exists (len prompt_texts * repeats).
  destruct (len prompt_texts * repeats) as [|q|q] eqn:Hq; try lia.
  eexists. split; [lia|]. split; [reflexivity|]. split.
  - rewrite Hlogged. reflexivity.
  - rewrite Hbatch. replace (Z.to_nat repeats) with 0%nat by lia. reflexivity.
Qed.

(** X5.  Every repeat yields the same block of jobs: the jobs built for
    one prompt text in two different repeats are equal in every field,
    the seed included. *)
Theorem repeats_are_identical :
  invoked_subcommand ctx = None ->
  exists prompts,
    dispatched (trace cmd) = [prompts] /\
    forall r1 r2 i : nat,
      Z.of_nat r1 < repeats -> Z.of_nat r2 < repeats ->
      (i < length prompt_texts)%nat ->
      exists p,
        nth_error prompts (r1 * length prompt_texts + i) = Some p /\
        nth_error prompts (r2 * length prompt_texts + i) = Some p.
Proof.
  intros Hctx. run_of Hctx.
  eexists. split; [exact Hbatch|].
  intros r1 r2 i Hr1 Hr2 Hi.
  match goal with
  | |- context [repeat (map ?f prompt_texts) ?R] =>
    pose proof (nth_error_concat_repeat (map f prompt_texts) R r1 i) as H1;
    pose proof (nth_error_concat_repeat (map f prompt_texts) R r2 i) as H2;
    rewrite length_map in H1, H2
  end.
  rewrite H1, H2 by lia. rewrite nth_error_map.
  destruct (nth_error prompt_texts i) as [text|] eqn:Htext.
  - eexists. split; reflexivity.
  - apply nth_error_None in Htext. lia.
Qed.

(** X6.  Every job that is handed to the backend with an init image (a
    URL source or a non-empty string) has the sampler ["ddim"]. *)
Theorem init_image_implies_ddim :
  invoked_subcommand ctx = None ->
  exists prompts,
    dispatched (trace cmd) = [prompts] /\
    Forall (fun p => schema.init_image p = RefNone \/
                     schema.init_image p = RefStr "" \/
                     schema.sampler_type p = "ddim") prompts.
Proof.
  intros Hctx. run_of Hctx.
  eexists. split; [exact Hbatch|]. apply Forall_batch. intros text.
  cbn [schema.init_image schema.sampler_type]. subst sampler image.
  destruct init_image as [s|]; [|left; reflexivity].
  destruct s as [|c s]; [right; left; reflexivity|].
  right. right. cbn [truthy String.eqb negb andb].
  destruct (sampler_type =? "ddim")%string eqn:Hreq; cbn [negb].
  - now apply String.eqb_eq in Hreq.
  - reflexivity.
Qed.

End imagine_cmd_run.

(** ** Two runs of [imagine_cmd] compared *)

Section imagine_cmd_compared.

Variable ctx : Context.
Variable prompt_texts : list string.
Variable prompt_strength : float.
Variable init_image : option string.
Variable init_image_strength : float.
Variable outdir : string.
Variable repeats : Z.
Variable height : Z.
Variable width : Z.
Variable steps : Z.
Variable seed : option Z.
Variable upscale : bool.
Variable fix_faces : bool.
Variable sampler_type : string.
Variable ddim_eta : float.
Variable log_level : string.
Variable show_work : list string.
Variable tile : bool.
Variable mask_image : option string.
Variable mask_prompt : option string.
Variable mask_mode : string.
Variable mask_expansion : Z.
Variable caption : bool.

(** The run with some of the arguments replaced. *)
Local Abbreviation run_with outdir repeats sampler_type ddim_eta log_level
      show_work tile caption :=
  (imagine_cmd ctx prompt_texts prompt_strength init_image
     init_image_strength outdir repeats height width steps seed upscale
     fix_faces sampler_type ddim_eta log_level show_work tile mask_image
     mask_prompt mask_mode mask_expansion caption).

Local Abbreviation cmd :=
  (run_with outdir repeats sampler_type ddim_eta log_level show_work tile
     caption).

Ltac run_of_with H outdir repeats sampler_type ddim_eta log_level show_work
     tile caption :=
  let sampler := fresh "sampler" in
  let image := fresh "image" in
  let Hs := fresh "Hsampler" in
  let Hi := fresh "Himage" in
  let Hd := fresh "Hbatch" in
  destruct (imagine_cmd_run ctx prompt_texts prompt_strength init_image
              init_image_strength outdir repeats height width steps seed
              upscale fix_faces sampler_type ddim_eta log_level show_work
              tile mask_image mask_prompt mask_mode mask_expansion caption H)
    as (sampler & image & Hs & Hi & _ & Hd & _ & _).

Lemma subcommand_dispatches_nothing (name : string) outdir' repeats'
      sampler_type' ddim_eta' log_level' show_work' tile' caption' :
  invoked_subcommand ctx = Some name ->
  dispatched (trace (run_with outdir' repeats' sampler_type' ddim_eta'
                       log_level' show_work' tile' caption')) = [].
Proof. intros Hctx. unfold imagine_cmd. now rewrite Hctx. Qed.

(** X13.  With an init image the requested sampler does not matter: any
    two requests give the same batch. *)
Theorem requested_sampler_ignored_with_init_image (sampler_type' : string) :
  truthy init_image = true ->
  dispatched (trace cmd)
  = dispatched (trace (run_with outdir repeats sampler_type' ddim_eta
                         log_level show_work tile caption)).
Proof.
  intros Himg. destruct (invoked_subcommand ctx) as [name|] eqn:Hctx.
  - now rewrite !(subcommand_dispatches_nothing name).
  - run_of_with Hctx outdir repeats sampler_type ddim_eta log_level
      show_work tile caption.
    run_of_with Hctx outdir repeats sampler_type' ddim_eta log_level
      show_work tile caption.
    rewrite Hbatch, Hbatch0. rewrite Himg in *.
    assert (Hddim : forall requested : string,
              (if true && negb (requested =? "ddim")%string
               then "ddim" else requested) = "ddim").
    { intros requested. cbn [andb].
      destruct (requested =? "ddim")%string eqn:Hreq; cbn [negb];
        [now apply String.eqb_eq in Hreq|reflexivity]. }
    rewrite Hddim in Hsampler, Hsampler0. now subst.
Qed.

(** X14.  The output directory, [ddim_eta], the log level, the
    [show_work] values, the tile flag and the caption flag have no
    influence on the jobs: two runs that differ only in them dispatch the
    same batch. *)
Theorem render_options_leave_jobs outdir' ddim_eta' log_level' show_work'
        tile' caption' :
  dispatched (trace cmd)
  = dispatched (trace (run_with outdir' repeats sampler_type ddim_eta'
                         log_level' show_work' tile' caption')).
Proof.
  destruct (invoked_subcommand ctx) as [name|] eqn:Hctx.
  - now rewrite !(subcommand_dispatches_nothing name).
  - run_of_with Hctx outdir repeats sampler_type ddim_eta log_level
      show_work tile caption.
    run_of_with Hctx outdir' repeats sampler_type ddim_eta' log_level'
      show_work' tile' caption'.
    rewrite Hbatch, Hbatch0. now subst.
Qed.

(** X15.  Repeat counts add up: the batch for [repeats + repeats'] is the
    batch for [repeats] followed by the batch for [repeats'], when
    neither count is negative. *)
Theorem repeats_add (repeats' : Z) :
  invoked_subcommand ctx = None ->
  0 <= repeats ->
  0 <= repeats' ->
  exists batch batch',
    dispatched (trace cmd) = [batch] /\
    dispatched (trace (run_with outdir repeats' sampler_type ddim_eta
                         log_level show_work tile caption)) = [batch'] /\
    dispatched (trace (run_with outdir (repeats + repeats') sampler_type
                         ddim_eta log_level show_work tile caption))
    = [batch ++ batch'].
Proof.
  intros Hctx Hrep Hrep'.
  run_of_with Hctx outdir repeats sampler_type ddim_eta log_level
    show_work tile caption.
  run_of_with Hctx outdir repeats' sampler_type ddim_eta log_level
    show_work tile caption.
  run_of_with Hctx outdir (repeats + repeats') sampler_type ddim_eta
    log_level show_work tile caption.
  do 2 eexists. split; [exact Hbatch|]. split; [exact Hbatch0|].
  rewrite Hbatch1. subst.
  now rewrite Z2Nat.inj_add, repeat_app, concat_app by assumption.
Qed.

End imagine_cmd_compared.

(** ** Sequencing *)

Lemma bind_assoc {A B C : Type} (m : Cmd A) (f : A -> Cmd B)
      (g : B -> Cmd C) :
  bind (bind m f) g = bind m (fun x => bind (f x) g).
Proof.
  destruct m as [tr [e|a]]; [reflexivity|]. cbn [bind].
  destruct (f a) as [tr' [e'|b]]; [reflexivity|]. cbn [bind].
  destruct (g b) as [tr'' r]. now rewrite app_assoc.
Qed.

Lemma for_each_app {A : Type} (a b : list A) (body : A -> Cmd unit) :
  for_each (a ++ b) body = (for_each a body ;; for_each b body).
Proof.
  induction a as [|x a IH]; cbn [app for_each].
  - unfold ret, bind. now destruct (for_each b body).
  - now rewrite IH, bind_assoc.
Qed.

Lemma printed_app (tr tr' : list event) :
  printed (tr ++ tr') = printed tr ++ printed tr'.
Proof.
  induction tr as [|ev tr IH]; [reflexivity|].
  destruct ev; cbn [app printed]; now rewrite IH.
Qed.

Lemma resolved_app (tr tr' : list event) :
  resolved (tr ++ tr') = resolved tr ++ resolved tr'.
Proof.
  induction tr as [|ev tr IH]; [reflexivity|].
  destruct ev; cbn [app resolved]; now rewrite IH.
Qed.

(** ** The run of [describe] *)

Lemma describe_imgs_map (image_filepaths : list string) :
  describe_imgs image_filepaths =
  map (fun p => if startswith p "http"
                then LazyLoadingImage_url p
                else LazyLoadingImage_filepath p) image_filepaths.
Proof. unfold describe_imgs. cbv zeta. now rewrite fold_left_snoc. Qed.

Section describe_run.

Variable Image : Type.
Variable copy : LazyLoadingImage -> exn + Image.
Variable generate_caption : Image -> exn + string.

Local Abbreviation source_of p :=
  (if startswith p "http"
   then LazyLoadingImage_url p
   else LazyLoadingImage_filepath p).

(** [text] is the caption the collaborators give for the path [p]. *)
Local Abbreviation captioned p text :=
  (exists loaded,
     copy (source_of p) = inr loaded /\ generate_caption loaded = inr text).

Lemma describe_loop (image_filepaths captions : list string) :
  Forall2 (fun p text => captioned p text) image_filepaths captions ->
  outcome (describe Image copy generate_caption image_filepaths) = inr tt /\
  printed (trace (describe Image copy generate_caption image_filepaths))
    = captions /\
  resolved (trace (describe Image copy generate_caption image_filepaths))
    = describe_imgs image_filepaths.
Proof.
  unfold describe. cbv zeta. rewrite describe_imgs_map.
  match goal with |- context [for_each _ ?b] => set (body := b) end.
  induction 1 as [|p text ps texts (loaded & Hcopy & Hcaption) _ IH].
  - repeat split.
  - assert (Hbody : body (source_of p)
                    = ([img_copy (source_of p); print text], inr tt)).
    { unfold body, bind, emit, call. rewrite Hcopy. cbn [app].
      rewrite Hcaption. reflexivity. }
    cbn [map for_each]. rewrite Hbody. unfold bind.
    destruct (for_each _ body) as [tr r].
    cbn [trace outcome fst snd app printed resolved] in *.
    destruct IH as (-> & -> & ->). repeat split.
Qed.

(** C7.  When the collaborators give a caption for every input, [describe]
    ends without an error having printed exactly these captions, one line
    per input image and in the order of the inputs, after resolving the
    image of each input in that same order. *)
Theorem captions_in_input_order (image_filepaths captions : list string) :
  Forall2 (fun p text => captioned p text) image_filepaths captions ->
  outcome (describe Image copy generate_caption image_filepaths) = inr tt /\
  printed (trace (describe Image copy generate_caption image_filepaths))
    = captions /\
  length (printed (trace (describe Image copy generate_caption
                            image_filepaths)))
    = length image_filepaths /\
  resolved (trace (describe Image copy generate_caption image_filepaths))
    = describe_imgs image_filepaths.
Proof.
  intros Hall. destruct (describe_loop _ _ Hall) as (Hout & Hprint & Hres).
  repeat split; try assumption.
  rewrite Hprint. symmetry. exact (Forall2_length Hall).
Qed.

(** ** [describe] when a collaborator fails, and the calls it makes *)

Local Abbreviation describe' := (describe Image copy generate_caption).

(** The body of the second loop. *)
Local Abbreviation caption_of img :=
  (loaded <- (emit (img_copy img) ;; call (copy img)) ;;
   text <- call (generate_caption loaded) ;;
   emit (print text)).

Lemma describe_for_each (image_filepaths : list string) :
  describe' image_filepaths
  = for_each (map (fun p => source_of p) image_filepaths)
             (fun img => caption_of img).
Proof. unfold describe. cbv zeta. now rewrite describe_imgs_map. Qed.

(** One turn of the loop either stops after the call of [copy], with the
    exception of [copy] or of [generate_caption], or prints one line. *)
Lemma caption_of_cases (img : LazyLoadingImage) :
  (exists e, caption_of img = ([img_copy img], inl e) /\
             (copy img = inl e \/
              exists loaded, copy img = inr loaded /\
                             generate_caption loaded = inl e)) \/
  (exists loaded text, caption_of img = ([img_copy img; print text], inr tt) /\
                       copy img = inr loaded /\
                       generate_caption loaded = inr text).
Proof.
  unfold bind, emit, call.
  destruct (copy img) as [e|loaded] eqn:Hcopy; cbn [app].
  - left. exists e. split; [reflexivity|left; reflexivity].
  - destruct (generate_caption loaded) as [e|text] eqn:Hcaption.
    + left. exists e. split; [reflexivity|].
      right. exists loaded. split; [reflexivity|exact Hcaption].
    + right. exists loaded, text. repeat split. exact Hcaption.
Qed.

(** X9.  Describing a list of paths is describing a first part of it and
    then, unless that ended with an exception, the rest. *)
Theorem describe_app (first rest : list string) :
  describe Image copy generate_caption (first ++ rest)
  = bind (describe Image copy generate_caption first)
         (fun _ => describe Image copy generate_caption rest).
Proof. now rewrite !describe_for_each, map_app, for_each_app. Qed.

(** X10.  [describe] stops at the first image that [copy] cannot load or
    [generate_caption] cannot caption: it ends with that exception, having
    printed the captions of the images before it and nothing else, and
    the images after it are never loaded. *)
Theorem describe_stops_at_first_failure
        (done rest captions : list string) (p : string) (e : exn) :
  Forall2 (fun p text => captioned p text) done captions ->
  (copy (source_of p) = inl e \/
   exists loaded, copy (source_of p) = inr loaded /\
                  generate_caption loaded = inl e) ->
  outcome (describe' (done ++ p :: rest)) = inl e /\
  printed (trace (describe' (done ++ p :: rest))) = captions /\
  resolved (trace (describe' (done ++ p :: rest)))
    = describe_imgs (done ++ [p]).
Proof.
  intros Hdone Hfail.
  destruct (describe_loop _ _ Hdone) as (Hout & Hprint & Hres).
  rewrite describe_for_each, map_app, for_each_app, <- describe_for_each.
  destruct (describe' done) as [tr r]. cbn [outcome trace fst snd] in *.
  subst r. cbn [bind].
  assert (Hturn : caption_of (source_of p)
                  = ([img_copy (source_of p)], inl e)).
  { unfold bind, emit, call.
    destruct Hfail as [Hcopy|(loaded & Hcopy & Hcaption)]; rewrite Hcopy;
      cbn [app]; [reflexivity|]. now rewrite Hcaption. }
  cbn [map for_each]. rewrite Hturn. cbn [bind].
  cbn [outcome trace fst snd].
  rewrite printed_app, resolved_app, Hprint, Hres.
  rewrite !describe_imgs_map, map_app. cbn [printed resolved map].
  now rewrite app_nil_r.
Qed.

(** X11.  Whatever the collaborators do, [describe] loads the images in
    input order without skipping one (the images loaded are the first [k]
    of the input), has printed a line for each of them except possibly the
    last, and returns normally only after loading and captioning all of
    them. *)
Theorem describe_loads_a_prefix (image_filepaths : list string) :
  exists k : nat,
    (k <= length image_filepaths)%nat /\
    resolved (trace (describe' image_filepaths))
      = firstn k (describe_imgs image_filepaths) /\
    (length (printed (trace (describe' image_filepaths))) <= k)%nat /\
    (k <= length (printed (trace (describe' image_filepaths))) + 1)%nat /\
    (outcome (describe' image_filepaths) = inr tt ->
       k = length image_filepaths /\
       length (printed (trace (describe' image_filepaths)))
         = length image_filepaths).
Proof.
  rewrite describe_for_each, describe_imgs_map.
  induction image_filepaths as [|p ps IH].
  - exists 0%nat. cbn. repeat split; lia.
  - cbn [map for_each].
    destruct (caption_of_cases (source_of p))
      as [(e & -> & _)|(loaded & text & -> & _)].
    + exists 1%nat. cbn. repeat split; try lia; discriminate.
    + destruct IH as (k & Hk & Hres & Hlow & Hhigh & Hall).
      destruct (for_each _ _) as [tr r].
      cbn [bind app trace outcome fst snd resolved printed length] in *.
      exists (S k). rewrite Hres. cbn [firstn].
      split; [lia|]. split; [reflexivity|]. split; [lia|]. split; [lia|].
      intros Hr. destruct (Hall Hr). split; lia.
Qed.

(** X12.  The calls of [describe], whatever the collaborators do: for
    each input in order, the [copy] of its image and then the [print] of
    the caption that [generate_caption] returned for what [copy] loaded,
    and no other call.  The run ends normally after the last input, or it
    ends right after a [copy] call, with the exception that this [copy],
    or [generate_caption] on what it loaded, raised. *)
Theorem describe_calls (image_filepaths : list string) :
  exists (turns : list (LazyLoadingImage * string)) (last : list event),
    trace (describe Image copy generate_caption image_filepaths)
      = flat_map (fun turn => [img_copy (fst turn); print (snd turn)]) turns
        ++ last /\
    map fst turns
      = firstn (length turns) (describe_imgs image_filepaths) /\
    Forall (fun turn =>
              exists loaded,
                copy (fst turn) = inr loaded /\
                generate_caption loaded = inr (snd turn)) turns /\
    ((last = [] /\
      outcome (describe Image copy generate_caption image_filepaths)
        = inr tt /\
      length turns = length image_filepaths) \/
     (exists img e,
        last = [img_copy img] /\
        outcome (describe Image copy generate_caption image_filepaths)
          = inl e /\
        nth_error (describe_imgs image_filepaths) (length turns)
          = Some img /\
        (copy img = inl e \/
         exists loaded, copy img = inr loaded /\
                        generate_caption loaded = inl e))).
Proof.
  rewrite describe_for_each, describe_imgs_map.
  induction image_filepaths as [|p ps IH].
  - exists [], []. cbn.
    split; [reflexivity|]. split; [reflexivity|]. split; [constructor|].
    left. repeat split.
  - cbn [map for_each].
    destruct (caption_of_cases (source_of p))
      as [(e & -> & Hwhy)|(loaded & text & -> & Hcopy & Hcaption)].
    + exists [], [img_copy (source_of p)]. cbn.
      split; [reflexivity|]. split; [reflexivity|]. split; [constructor|].
      right. exists (source_of p), e.
      split; [reflexivity|]. split; [reflexivity|]. split; [reflexivity|].
      exact Hwhy.
    + destruct IH as (turns & last & Htrace & Hfst & Hall & Hend).
      destruct (for_each _ _) as [tr r].
      cbn [bind app trace outcome fst snd] in *.
      exists ((source_of p, text) :: turns), last.
      cbn [flat_map map length firstn fst snd app nth_error].
      split; [now rewrite Htrace|]. split; [now rewrite Hfst|].
      split; [constructor; [exists loaded; split; assumption|exact Hall]|].
      destruct Hend as [(Hlast & Hr & Hlen)|(img & e & Hlast & Hr & Hnth & Hwhy)].
      * left. repeat split; [exact Hlast|exact Hr|now rewrite Hlen].
      * right. exists img, e. repeat split; assumption.
Qed.

End describe_run.

(** ** Where an image reference comes from *)

(** C6, as amended.  The prefix of the reference decides the origin
    where a [LazyLoadingImage] is built.  In [describe], every path that
    begins with ["http"] becomes a URL source and every other path a file
    source, position by position.  In [imagine_cmd], an init image that
    begins with ["http"] reaches every job as a URL source; any other init
    image, and every mask image whatever it begins with, reaches every job
    as the raw string: no origin is determined for them at this layer. *)
Theorem origin_by_http_prefix :
  (forall image_filepaths : list string,
     length (describe_imgs image_filepaths) = length image_filepaths /\
     forall (i : nat) (p : string),
       nth_error image_filepaths i = Some p ->
       (startswith p "http" = true ->
          nth_error (describe_imgs image_filepaths) i
          = Some (LazyLoadingImage_url p)) /\
       (startswith p "http" = false ->
          nth_error (describe_imgs image_filepaths) i
          = Some (LazyLoadingImage_filepath p))) /\
  (forall ctx prompt_texts prompt_strength (s : string) init_image_strength
          outdir repeats height width steps seed upscale fix_faces
          sampler_type ddim_eta log_level show_work tile mask_image
          mask_prompt mask_mode mask_expansion caption,
     invoked_subcommand ctx = None ->
     exists prompts,
       dispatched
         (trace
            (imagine_cmd ctx prompt_texts prompt_strength (Some s)
               init_image_strength outdir repeats height width steps seed
               upscale fix_faces sampler_type ddim_eta log_level show_work
               tile mask_image mask_prompt mask_mode mask_expansion caption))
       = [prompts] /\
       (startswith s "http" = true ->
          Forall (fun p => schema.init_image p
                           = RefLazy (LazyLoadingImage_url s)) prompts) /\
       (startswith s "http" = false ->
          Forall (fun p => schema.init_image p = RefStr s) prompts) /\
       (forall m : string, mask_image = Some m ->
          Forall (fun p => schema.mask_image p = RefStr m) prompts)).
Proof.
  split.
  - intros image_filepaths. rewrite describe_imgs_map, length_map.
    split; [reflexivity|].
    intros i p Hp. rewrite nth_error_map, Hp. simpl.
    split; intros ->; reflexivity.
  - intros.
    destruct (image_refs_of_jobs ctx prompt_texts prompt_strength (Some s)
                init_image_strength outdir repeats height width steps seed
                upscale fix_faces sampler_type ddim_eta log_level show_work
                tile mask_image mask_prompt mask_mode mask_expansion caption
                s H eq_refl) as (prompts & Hbatch & Hinit & Hmask).
    exists prompts. split; [exact Hbatch|].
    split; [intros Hpre; rewrite Hpre in Hinit; exact Hinit|].
    split; [intros Hpre; rewrite Hpre in Hinit; exact Hinit|].
    intros m Hm. rewrite Hm in Hmask. exact Hmask.
Qed.

(** ** The limits of the statements above *)

(** When a subcommand is invoked the body of [imagine_cmd] does not run:
    nothing is logged, loaded or dispatched. *)
Lemma subcommand_invoked (name : string) prompt_texts prompt_strength
      init_image init_image_strength outdir repeats height width steps seed
      upscale fix_faces sampler_type ddim_eta log_level show_work tile
      mask_image mask_prompt mask_mode mask_expansion caption :
  imagine_cmd {| invoked_subcommand := Some name |} prompt_texts
    prompt_strength init_image init_image_strength outdir repeats height
    width steps seed upscale fix_faces sampler_type ddim_eta log_level
    show_work tile mask_image mask_prompt mask_mode mask_expansion caption
  = ([], inr tt).
Proof. reflexivity. Qed.

(** An empty init image string counts as no init image: the sampler is
    kept. *)
Example empty_init_image_keeps_sampler :
  dispatched
    (trace
       (imagine_cmd ctx0 ["a cat"] 7.5%float (Some "")
          0x1.3333333333333p-1%float "./outputs" 1 512 512 40 None false
          false "plms" 0%float "INFO" ["none"] false None None "replace" 2
          false))
  = [[ {| schema.prompt_text := "a cat";
          schema.prompt_strength := 7.5%float;
          schema.init_image := RefStr "";
          schema.init_image_strength := 0x1.3333333333333p-1%float;
          schema.seed := None;
          schema.sampler_type := "plms";
          schema.steps := 40;
          schema.height := 512;
          schema.width := 512;
          schema.mask_image := RefNone;
          schema.mask_prompt := None;
          schema.mask_expansion := 2;
          schema.mask_mode := "replace";
          schema.upscale := false;
          schema.fix_faces := false |} ]].
Proof. reflexivity. Qed.

(** With a negative repeat count the logged total is negative while the
    batch is empty. *)
Example minus_one_repeat_log :
  logged (trace cat_dog_minus_one_times)
  = [("🤖🧠 imaginAIry received 2 prompt(s) and will repeat them -1 times"
      ++ " to create -2 images.")%string].
Proof. reflexivity. Qed.

(** [describe] stops at the first image that cannot be loaded: the
    captions before it are printed, the ones after it are not. *)
Example describe_stops_at_failure :
  describe string copy_offline caption_quoted
    ["local.png"; "http://x/y.png"; "other.png"]
  = ([img_copy (LazyLoadingImage_filepath "local.png");
      print "a picture from local local.png";
      img_copy (LazyLoadingImage_url "http://x/y.png")],
     inl SourceUnavailable).
Proof. reflexivity. Qed.

(** ** The claims at concrete inputs *)

Lemma batch_size_and_order_witness :
  exists prompts,
    dispatched (trace cat_dog_twice) = [prompts] /\
    len prompts = len ["a cat"; "a dog"] * 2 /\
    forall r i : nat,
      Z.of_nat r < 2 -> (i < length ["a cat"; "a dog"])%nat ->
      exists p,
        nth_error prompts (r * length ["a cat"; "a dog"] + i) = Some p /\
        nth_error ["a cat"; "a dog"] i = Some (schema.prompt_text p).
Proof.
  apply (batch_size_and_order ctx0 ["a cat"; "a dog"] 7.5%float None
           0x1.3333333333333p-1%float "./outputs" 2 512 512 40 None false
           false "plms" 0%float "INFO" ["none"] false None None "replace" 2
           false);
    [reflexivity | lia].
Defined.

Lemma sampler_resolution_witness :
  exists prompts,
    dispatched (trace photo_plms) = [prompts] /\
    outcome photo_plms = inr tt /\
    Forall (fun p => schema.sampler_type p = "ddim") prompts /\
    In "   Sampler type switched to ddim for img2img"
       (logged (trace photo_plms)).
Proof.
  destruct (sampler_resolution ctx0 ["a cat"; "a dog"] 7.5%float
              (Some "photo.jpg") 0x1.3333333333333p-1%float "./outputs" 2
              512 512 40 (Some 42) false false "plms" 0%float "INFO"
              ["none"] false (Some "http://x/mask.png") (Some "the sky")
              "replace" 2 false eq_refl)
    as (prompts & Hbatch & Houtcome & Hswitch & _).
  exists prompts. split; [exact Hbatch|]. split; [exact Houtcome|].
  apply Hswitch; [reflexivity|discriminate].
Defined.

Lemma nonpositive_repeats_empty_batch_witness :
  -1 <= 0 /\
  outcome cat_dog_minus_one_times = inr tt /\
  model_loads (trace cat_dog_minus_one_times) = [false] /\
  dispatched (trace cat_dog_minus_one_times) = [[]].
Proof.
  split; [lia|].
  apply (nonpositive_repeats_empty_batch ctx0 ["a cat"; "a dog"] 7.5%float
           None 0x1.3333333333333p-1%float "./outputs" (-1) 512 512 40 None
           false false "plms" 0%float "INFO" ["none"] false None None
           "replace" 2 false);
    [reflexivity | lia].
Defined.

Lemma empty_batch_witness :
  outcome cat_dog_zero_times = inr tt /\
  dispatched (trace cat_dog_zero_times) = [[]].
Proof.
  apply (empty_batch ctx0 ["a cat"; "a dog"] 7.5%float None
           0x1.3333333333333p-1%float "./outputs" 0 512 512 40 None false
           false "plms" 0%float "INFO" ["none"] false None None "replace" 2
           false);
    [reflexivity | right; reflexivity].
Defined.

Lemma seed_propagation_witness :
  exists prompts,
    dispatched (trace photo_plms) = [prompts] /\
    Forall (fun p => schema.seed p = Some 42) prompts.
Proof.
  apply (seed_propagation ctx0 ["a cat"; "a dog"] 7.5%float
           (Some "photo.jpg") 0x1.3333333333333p-1%float "./outputs" 2 512
           512 40 (Some 42) false false "plms" 0%float "INFO" ["none"] false
           (Some "http://x/mask.png") (Some "the sky") "replace" 2 false);
    reflexivity.
Defined.

Lemma shared_fields_witness :
  exists prompts,
    dispatched (trace photo_plms) = [prompts] /\
    forall p q, In p prompts -> In q prompts ->
      schema.seed p = schema.seed q /\
      schema.prompt_strength p = schema.prompt_strength q /\
      schema.init_image p = schema.init_image q /\
      schema.init_image_strength p = schema.init_image_strength q /\
      schema.height p = schema.height q /\
      schema.width p = schema.width q /\
      schema.steps p = schema.steps q /\
      schema.sampler_type p = schema.sampler_type q /\
      schema.mask_image p = schema.mask_image q /\
      schema.mask_prompt p = schema.mask_prompt q /\
      schema.mask_mode p = schema.mask_mode q /\
      schema.mask_expansion p = schema.mask_expansion q /\
      schema.upscale p = schema.upscale q /\
      schema.fix_faces p = schema.fix_faces q.
Proof.
  apply (shared_fields ctx0 ["a cat"; "a dog"] 7.5%float
           (Some "photo.jpg") 0x1.3333333333333p-1%float "./outputs" 2 512
           512 40 (Some 42) false false "plms" 0%float "INFO" ["none"] false
           (Some "http://x/mask.png") (Some "the sky") "replace" 2 false);
    reflexivity.
Defined.

Lemma both_mask_directives_accepted_witness :
  outcome photo_plms = inr tt /\
  exists prompts,
    dispatched (trace photo_plms) = [prompts] /\
    length prompts = 4%nat /\
    Forall (fun p => schema.mask_image p = RefStr "http://x/mask.png" /\
                     schema.mask_prompt p = Some "the sky") prompts.
Proof.
  apply (both_mask_directives_accepted ctx0 ["a cat"; "a dog"] 7.5%float
           (Some "photo.jpg") 0x1.3333333333333p-1%float "./outputs" 2 512
           512 40 (Some 42) false false "plms" 0%float "INFO" ["none"] false
           (Some "http://x/mask.png") (Some "the sky") "replace" 2 false
           "http://x/mask.png" "the sky");
    reflexivity.
Defined.

Lemma raw_image_strings_witness :
  exists prompts,
    dispatched (trace photo_plms) = [prompts] /\
    Forall (fun p => schema.init_image p = RefStr "photo.jpg") prompts /\
    Forall (fun p => schema.mask_image p = RefStr "http://x/mask.png")
           prompts.
Proof.
  destruct (raw_image_strings ctx0 ["a cat"; "a dog"] 7.5%float
              (Some "photo.jpg") 0x1.3333333333333p-1%float "./outputs" 2
              512 512 40 (Some 42) false false "plms" 0%float "INFO"
              ["none"] false (Some "http://x/mask.png") (Some "the sky")
              "replace" 2 false eq_refl)
    as (prompts & Hbatch & Hinit & Hmask).
  exists prompts. split; [exact Hbatch|]. split.
  - apply Hinit; reflexivity.
  - apply Hmask; reflexivity.
Defined.

Lemma origin_by_http_prefix_witness :
  nth_error (describe_imgs ["http://x/y.png"; "local.png"]) 0
    = Some (LazyLoadingImage_url "http://x/y.png") /\
  nth_error (describe_imgs ["http://x/y.png"; "local.png"]) 1
    = Some (LazyLoadingImage_filepath "local.png") /\
  (exists prompts,
     dispatched (trace remote_photo) = [prompts] /\
     Forall (fun p => schema.init_image p
                      = RefLazy (LazyLoadingImage_url "http://x/y.png"))
            prompts) /\
  (exists prompts,
     dispatched (trace photo_plms) = [prompts] /\
     Forall (fun p => schema.init_image p = RefStr "photo.jpg") prompts /\
     Forall (fun p => schema.mask_image p = RefStr "http://x/mask.png")
            prompts).
Proof.
  destruct origin_by_http_prefix as [Hdescribe Himagine].
  destruct (Hdescribe ["http://x/y.png"; "local.png"]) as [_ Hnth].
  split; [apply (Hnth 0%nat "http://x/y.png"); reflexivity|].
  split; [apply (Hnth 1%nat "local.png"); reflexivity|].
  split.
  - destruct (Himagine ctx0 ["a cat"] 7.5%float "http://x/y.png"
                0x1.3333333333333p-1%float "./outputs" 1 512 512 40 None
                false false "ddim" 0%float "INFO" ["none"] false None None
                "replace" 2 false eq_refl)
      as (prompts & Hbatch & Hurl & _ & _).
    exists prompts. split; [exact Hbatch|]. apply Hurl. reflexivity.
  - destruct (Himagine ctx0 ["a cat"; "a dog"] 7.5%float "photo.jpg"
                0x1.3333333333333p-1%float "./outputs" 2 512 512 40
                (Some 42) false false "plms" 0%float "INFO" ["none"] false
                (Some "http://x/mask.png") (Some "the sky") "replace" 2
                false eq_refl)
      as (prompts & Hbatch & _ & Hraw & Hmask).
    exists prompts. split; [exact Hbatch|]. split.
    + apply Hraw. reflexivity.
    + apply (Hmask "http://x/mask.png"). reflexivity.
Defined.

Lemma captions_in_input_order_witness :
  outcome (describe string copy_tagged caption_quoted
             ["http://x/y.png"; "local.png"]) = inr tt /\
  printed (trace (describe string copy_tagged caption_quoted
                    ["http://x/y.png"; "local.png"]))
    = ["a picture from remote http://x/y.png";
       "a picture from local local.png"] /\
  length (printed (trace (describe string copy_tagged caption_quoted
                            ["http://x/y.png"; "local.png"])))
    = length ["http://x/y.png"; "local.png"] /\
  resolved (trace (describe string copy_tagged caption_quoted
                     ["http://x/y.png"; "local.png"]))
    = describe_imgs ["http://x/y.png"; "local.png"].
Proof.
  apply (captions_in_input_order string copy_tagged caption_quoted).
  apply Forall2_cons; [eexists; split; reflexivity|].
  apply Forall2_cons; [eexists; split; reflexivity|].
  apply Forall2_nil.
Defined.

(** ** Where the code departs from the specification *)

(** C3 as the specification states it fails: with a repeat count of [0]
    and of [-1] the run ends normally (no [InvalidParameter]), after
    loading the model and handing an empty batch to the backend. *)
Lemma nonpositive_repeats_not_rejected :
  (0 <= 0 /\
   outcome cat_dog_zero_times <> inl InvalidParameter /\
   outcome cat_dog_zero_times = inr tt /\
   model_loads (trace cat_dog_zero_times) = [false] /\
   dispatched (trace cat_dog_zero_times) = [[]]) /\
  (-1 <= 0 /\
   outcome cat_dog_minus_one_times <> inl InvalidParameter /\
   outcome cat_dog_minus_one_times = inr tt /\
   model_loads (trace cat_dog_minus_one_times) = [false] /\
   dispatched (trace cat_dog_minus_one_times) = [[]]).
Proof. repeat split; discriminate. Qed.

(** C6 as the specification states it fails in [imagine_cmd]: a mask
    image that begins with ["http"] is not made a URL source, and an init
    image that does not begin with ["http"] is not made a file source;
    both reach each of the four jobs as raw strings. *)
Lemma origin_not_determined_in_generate :
  startswith "http://x/mask.png" "http" = true /\
  startswith "photo.jpg" "http" = false /\
  exists prompts,
    dispatched (trace photo_plms) = [prompts] /\
    length prompts = 4%nat /\
    Forall (fun p =>
              schema.mask_image p = RefStr "http://x/mask.png" /\
              schema.mask_image p
                <> RefLazy (LazyLoadingImage_url "http://x/mask.png") /\
              schema.init_image p = RefStr "photo.jpg" /\
              schema.init_image p
                <> RefLazy (LazyLoadingImage_filepath "photo.jpg"))
           prompts.
Proof.
  split; [reflexivity|]. split; [reflexivity|].
  eexists. split; [vm_compute; reflexivity|]. split; [reflexivity|].
  repeat constructor; discriminate.
Qed.

(** ** The further properties at concrete inputs *)

Lemma announced_total_is_batch_size_witness :
  exists prompts,
    dispatched (trace cat_dog_twice) = [prompts] /\
    hd_error (logged (trace cat_dog_twice)) =
      Some ("🤖🧠 imaginAIry received 2 prompt(s) and will repeat them 2"
            ++ " times to create " ++ str_of_int (len prompts)
            ++ " images.")%string.
Proof.
  apply (announced_total_is_batch_size ctx0 ["a cat"; "a dog"] 7.5%float
           None 0x1.3333333333333p-1%float "./outputs" 2 512 512 40 None
           false false "plms" 0%float "INFO" ["none"] false None None
           "replace" 2 false);
    [reflexivity | lia].
Defined.

Lemma negative_repeats_announce_negative_total_witness :
  exists total digits,
    total < 0 /\
    str_of_int total = String "-" digits /\
    hd_error (logged (trace cat_dog_minus_one_times)) =
      Some ("🤖🧠 imaginAIry received 2 prompt(s) and will repeat them -1"
            ++ " times to create " ++ str_of_int total
            ++ " images.")%string /\
    dispatched (trace cat_dog_minus_one_times) = [[]].
Proof.
  apply (negative_repeats_announce_negative_total ctx0 ["a cat"; "a dog"]
           7.5%float None 0x1.3333333333333p-1%float "./outputs" (-1) 512
           512 40 None false false "plms" 0%float "INFO" ["none"] false None
           None "replace" 2 false);
    [reflexivity | lia | discriminate].
Defined.

Lemma repeats_are_identical_witness :
  exists prompts,
    dispatched (trace cat_dog_twice) = [prompts] /\
    exists p, nth_error prompts 1 = Some p /\ nth_error prompts 3 = Some p.
Proof.
  destruct (repeats_are_identical ctx0 ["a cat"; "a dog"] 7.5%float None
              0x1.3333333333333p-1%float "./outputs" 2 512 512 40 None false
              false "plms" 0%float "INFO" ["none"] false None None "replace"
              2 false eq_refl)
    as (prompts & Hbatch & Hsame).
  exists prompts. split; [exact Hbatch|].
  apply (Hsame 0%nat 1%nat 1%nat); [lia | lia | simpl; lia].
Defined.

Lemma init_image_implies_ddim_witness :
  exists prompts,
    dispatched (trace photo_plms) = [prompts] /\
    Forall (fun p => schema.init_image p = RefNone \/
                     schema.init_image p = RefStr "" \/
                     schema.sampler_type p = "ddim") prompts.
Proof.
  apply (init_image_implies_ddim ctx0 ["a cat"; "a dog"] 7.5%float
           (Some "photo.jpg") 0x1.3333333333333p-1%float "./outputs" 2 512
           512 40 (Some 42) false false "plms" 0%float "INFO" ["none"] false
           (Some "http://x/mask.png") (Some "the sky") "replace" 2 false);
    reflexivity.
Defined.

Lemma describe_stops_at_first_failure_witness :
  outcome (describe string copy_offline caption_quoted
             (["local.png"] ++ "http://x/y.png" :: ["other.png"]))
    = inl SourceUnavailable /\
  printed (trace (describe string copy_offline caption_quoted
                    (["local.png"] ++ "http://x/y.png" :: ["other.png"])))
    = ["a picture from local local.png"] /\
  resolved (trace (describe string copy_offline caption_quoted
                     (["local.png"] ++ "http://x/y.png" :: ["other.png"])))
    = describe_imgs (["local.png"] ++ ["http://x/y.png"]).
Proof.
  apply (describe_stops_at_first_failure string copy_offline caption_quoted
           ["local.png"] ["other.png"] ["a picture from local local.png"]
           "http://x/y.png" SourceUnavailable).
  - apply Forall2_cons; [eexists; split; reflexivity|]. apply Forall2_nil.
  - left. reflexivity.
Defined.

Lemma requested_sampler_ignored_with_init_image_witness :
  dispatched (trace photo_plms) = dispatched (trace photo_ddim).
Proof.
  apply (requested_sampler_ignored_with_init_image ctx0 ["a cat"; "a dog"]
           7.5%float (Some "photo.jpg") 0x1.3333333333333p-1%float
           "./outputs" 2 512 512 40 (Some 42) false false "plms" 0%float
           "INFO" ["none"] false (Some "http://x/mask.png") (Some "the sky")
           "replace" 2 false "ddim").
  reflexivity.
Defined.

Lemma repeats_add_witness :
  exists batch batch',
    dispatched (trace cat_dog_once) = [batch] /\
    dispatched (trace cat_dog_twice) = [batch'] /\
    dispatched (trace cat_dog_thrice) = [batch ++ batch'].
Proof.
  apply (repeats_add ctx0 ["a cat"; "a dog"] 7.5%float None
           0x1.3333333333333p-1%float "./outputs" 1 512 512 40 None false
           false "plms" 0%float "INFO" ["none"] false None None "replace" 2
           false 2);
    [reflexivity | lia | lia].
Defined.
